(** * The STDP sensor step of norse

    Source: [norse/torch/functional/stdp_sensor.py].

    The kernel is a closed-form, element-wise update of two eligibility
    traces.  Its operands are [torch.Tensor] values combined with [+], [*]
    and unary [-], and one Python [float] ([dt]) that multiplies a tensor.

    Arithmetic.  The source does not fix the arithmetic of its operands: it
    is that of the tensors it is handed.  The embedding is therefore written
    once, over an interface [Arith] of the operations the source uses, and
    read at two instances:

    - [IEEE_arith prec emax], binary floating point with round to nearest
      even ([SpecFloat] of the Standard Library): [prec = 53], [emax = 1024]
      is [torch.float64] and the Python [float]; [prec = 24], [emax = 128]
      is [torch.float32].  This is the arithmetic the code runs in.  NaN is
      one value there: its payload and sign are not told apart.
    - [Real_arith], the real numbers: the formula the code approximates.

    A statement made for every instance of [Arith] holds in whatever
    arithmetic the tensors carry, integer tensors included.

    Tensor model.  Every operand is viewed at the common broadcast shape of
    the call: [I] is the type of the positions of that shape and a tensor is
    the family of its entries.  Shape errors raised by the array library are
    outside this model. *)

From Stdlib Require Import ZArith QArith Qreals Reals Lra Lia Psatz Bool List.
From Stdlib Require Import SpecFloat.
Import ListNotations.

Open Scope R_scope.

(** ** The operations the source uses *)

(** [P] is the type of Python floats, [A] the type of tensor entries. *)
Class Arith (P A : Type) : Type := {
  (** the value of a decimal literal of the source text *)
  py_lit : Q -> P;
  (** [x / y] on Python floats *)
  py_div : P -> P -> P;
  (** a Python float entering a tensor: [torch.tensor(x)], or the scalar
      operand of a tensor operation *)
  cast : P -> A;
  (** [x + y], [x * y] and [-x] on the entries of tensors *)
  eadd : A -> A -> A;
  emul : A -> A -> A;
  eneg : A -> A
}.

(** ** Tensors *)

Module Torch.

Section Tensor.
Context {P A : Type} {ar : Arith P A}.
Variable I : Type.

(** A tensor at the broadcast shape [I]. *)
Definition Tensor : Type := I -> A.

(** [torch.tensor(x)]: a 0-dim tensor, broadcast to every position. *)
Definition tensor (x : P) : Tensor := fun _ => cast x.

(** [x + y] *)
Definition add (x y : Tensor) : Tensor := fun i => eadd (x i) (y i).

(** [x * y] *)
Definition mul (x y : Tensor) : Tensor := fun i => emul (x i) (y i).

(** [-x] *)
Definition neg (x : Tensor) : Tensor := fun i => eneg (x i).

(** [c * x] for a Python float [c] ([Tensor.__rmul__]): the scalar enters
    the operation in the arithmetic of the tensor. *)
Definition rmul (c : P) (x : Tensor) : Tensor := fun i => emul (cast c) (x i).

(** Two tensors hold the same entries. *)
Definition teq (x y : Tensor) : Prop := forall i, x i = y i.

End Tensor.

Arguments Tensor : clear implicits.
Arguments tensor {P A ar I} x.
Arguments add {P A ar I} x y.
Arguments mul {P A ar I} x y.
Arguments neg {P A ar I} x.
Arguments rmul {P A ar I} c x.
Arguments teq {A I} x y.

End Torch.

Import Torch.

Declare Scope tensor_scope.
Delimit Scope tensor_scope with T.
Bind Scope tensor_scope with Tensor.
Infix "+" := add : tensor_scope.
Infix "*" := mul : tensor_scope.
Notation "- x" := (neg x) : tensor_scope.
Infix ".*" := rmul (at level 40, left associativity) : tensor_scope.
Infix "==" := teq (at level 70, no associativity) : tensor_scope.

(** ** The records of the source *)

Section Sensor.
Context {P A : Type} {ar : Arith P A}.
Variable I : Type.

(** [class STDPSensorParameters(NamedTuple)] *)
Record STDPSensorParameters : Type := mkParameters {
  eta_p : Tensor A I;
  eta_m : Tensor A I;
  tau_ac_inv : Tensor A I;
  tau_c_inv : Tensor A I
}.

(** [class STDPSensorState(NamedTuple)] *)
Record STDPSensorState : Type := mkState {
  a_pre : Tensor A I;
  a_post : Tensor A I
}.

(** [STDPSensorParameters()]: every field at its declared default,
    lines 16 to 19.  The two numbers, [1.0] and [10.0], are exact in every
    binary format, so that the tensors holding them enter an operation of
    any dtype unchanged. *)
Definition default_parameters : STDPSensorParameters :=
  {| eta_p := tensor (py_lit 1.0);
     eta_m := tensor (py_lit 1.0);
     tau_ac_inv := tensor (py_div (py_lit 1.0) (py_lit 100e-3));
     tau_c_inv := tensor (py_div (py_lit 1.0) (py_lit 100e-3)) |}.

(** The default of the [dt] argument, line 38. *)
Definition default_dt : P := py_lit 0.001.

(** ** [stdp_sensor_step], lines 49 to 59 *)
Definition stdp_sensor_step
    (z_pre z_post : Tensor A I) (s : STDPSensorState)
    (p : STDPSensorParameters) (dt : P)
  : Tensor A I * STDPSensorState :=
  let da_pre := (tau_c_inv p * (- a_pre s))%T in
  let a_pre_decayed := (a_pre s + dt .* da_pre)%T in
  let da_post := (tau_c_inv p * (- a_post s))%T in
  let a_post_decayed := (a_post s + dt .* da_post)%T in
  let a_pre_new := (a_pre_decayed + z_pre * eta_p p)%T in
  let a_post_new := (a_post_decayed + z_post * eta_m p)%T in
  let dw := (z_pre * a_pre_new + z_post * a_post_new)%T in
  (dw, mkState a_pre_new a_post_new).

(** A call as Python resolves it: an omitted [p] or [dt] ([None]) takes
    the default of the signature, lines 37 and 38. *)
Definition stdp_sensor_step_call
    (z_pre z_post : Tensor A I) (s : STDPSensorState)
    (p : option STDPSensorParameters) (dt : option P)
  : Tensor A I * STDPSensorState :=
  stdp_sensor_step z_pre z_post s
    (match p with Some p' => p' | None => default_parameters end)
    (match dt with Some dt' => dt' | None => default_dt end).

End Sensor.

Arguments STDPSensorParameters : clear implicits.
Arguments STDPSensorState : clear implicits.
Arguments mkParameters {A I} _ _ _ _.
Arguments mkState {A I} _ _.
Arguments eta_p {A I} _.
Arguments eta_m {A I} _.
Arguments tau_ac_inv {A I} _.
Arguments tau_c_inv {A I} _.
Arguments a_pre {A I} _.
Arguments a_post {A I} _.
Arguments default_parameters {P A ar I}.
Arguments default_dt {P A ar}.
Arguments stdp_sensor_step {P A ar I} z_pre z_post s p dt.
Arguments stdp_sensor_step_call {P A ar I} z_pre z_post s p dt.

(** ** The real numbers *)

#[global] Instance Real_arith : Arith R R := {|
  py_lit := Q2R;
  py_div := Rdiv;
  cast := fun x => x;
  eadd := Rplus;
  emul := Rmult;
  eneg := Ropp
|}.

(** ** Binary floating point *)

(** The Python [float] is binary64. *)
Definition py_prec : Z := 53.
Definition py_emax : Z := 1024.

(** An integer, rounded to the format. *)
Definition SFofZ (prec emax : Z) (z : Z) : spec_float :=
  binary_normalize prec emax z 0 false.

(** A decimal literal [n / d] as Python reads it: the binary64 number
    nearest to it.  The quotient of two binary64 numbers is correctly
    rounded, so this is that number whenever [n] and [d] are themselves
    binary64 numbers (below [2 ^ 53] in magnitude, as are those of every
    literal of the source), or [d = 1]. *)
Definition SFlit (q : Q) : spec_float :=
  SFdiv py_prec py_emax
    (SFofZ py_prec py_emax (Qnum q)) (SFofZ py_prec py_emax (Zpos (Qden q))).

(** A float rounded to the format [(prec, emax)]; a binary64 number enters
    a [torch.float64] operation as it is and a [torch.float32] one rounded
    to binary32. *)
Definition SFcast (prec emax : Z) (x : spec_float) : spec_float :=
  match x with
  | S754_finite s m e => binary_round prec emax s m e
  | _ => x
  end.

(** Tensors of the format [(prec, emax)] and Python floats. *)
Definition IEEE_arith (prec emax : Z) : Arith spec_float spec_float := {|
  py_lit := SFlit;
  py_div := SFdiv py_prec py_emax;
  cast := SFcast prec emax;
  eadd := SFadd prec emax;
  emul := SFmul prec emax;
  eneg := SFopp
|}.

(** [torch.float64] and [torch.float32]. *)
Definition binary64 : Arith spec_float spec_float := IEEE_arith 53 1024.
Definition binary32 : Arith spec_float spec_float := IEEE_arith 24 128.

(** Neither infinite nor NaN. *)
Definition SFfinite (x : spec_float) : bool :=
  match x with
  | S754_finite _ _ _ | S754_zero _ => true
  | _ => false
  end.

(** [+0] or [-0]. *)
Definition SFis_zero (x : spec_float) : bool :=
  match x with
  | S754_zero _ => true
  | _ => false
  end.

(** The same number: equal, or two zeros that differ in sign. *)
Definition SFsame (x y : spec_float) : Prop :=
  x = y \/ (SFis_zero x = true /\ SFis_zero y = true).

(** The number a finite float stands for, as a fraction and as a real. *)
Definition SF2Q (x : spec_float) : Q :=
  match x with
  | S754_finite s m e => (inject_Z (cond_Zopp s (Zpos m)) * 2 ^ e)%Q
  | _ => 0%Q
  end.

Definition SF2R (x : spec_float) : R := Q2R (SF2Q x).

(** An operation is exact on two operands when its result is finite and
    stands for the sum, or the product, of the numbers the operands stand
    for: nothing was rounded off and nothing overflowed. *)
Definition exact_add (prec emax : Z) (x y : spec_float) : bool :=
  SFfinite (SFadd prec emax x y)
  && Qeq_bool (SF2Q (SFadd prec emax x y)) (SF2Q x + SF2Q y).

Definition exact_mul (prec emax : Z) (x y : spec_float) : bool :=
  SFfinite (SFmul prec emax x y)
  && Qeq_bool (SF2Q (SFmul prec emax x y)) (SF2Q x * SF2Q y).

(** The five operations that make one new trace at one position (lines 49,
    50 and 55 for the pre trace) are all exact. *)
Definition exact_trace (prec emax : Z) (z a eta tau dt : spec_float) : bool :=
  let da := SFmul prec emax tau (SFopp a) in
  let step := SFmul prec emax dt da in
  let decayed := SFadd prec emax a step in
  let spike := SFmul prec emax z eta in
  exact_mul prec emax tau (SFopp a)
  && exact_mul prec emax dt da
  && exact_add prec emax a step
  && exact_mul prec emax z eta
  && exact_add prec emax decayed spike.

(** The three operations of line 58 at one position are all exact. *)
Definition exact_dw (prec emax : Z) (z_pre n_pre z_post n_post : spec_float)
  : bool :=
  exact_mul prec emax z_pre n_pre
  && exact_mul prec emax z_post n_post
  && exact_add prec emax (SFmul prec emax z_pre n_pre)
                         (SFmul prec emax z_post n_post).

(** Every operation of one call is exact at position [i]. *)
Definition exact_step (prec emax : Z) {I : Type}
    (z_pre z_post : Tensor spec_float I) (s : STDPSensorState spec_float I)
    (p : STDPSensorParameters spec_float I) (dt : spec_float) (i : I) : bool :=
  let r := stdp_sensor_step (ar := IEEE_arith prec emax) z_pre z_post s p dt in
  exact_trace prec emax (z_pre i) (a_pre s i) (eta_p p i) (tau_c_inv p i)
    (SFcast prec emax dt)
  && exact_trace prec emax (z_post i) (a_post s i) (eta_m p i) (tau_c_inv p i)
       (SFcast prec emax dt)
  && exact_dw prec emax (z_pre i) (a_pre (snd r) i)
       (z_post i) (a_post (snd r) i).

(** The numbers behind a float tensor and behind the records. *)
Definition values {I : Type} (x : Tensor spec_float I) : Tensor R I :=
  fun i => SF2R (x i).

Definition state_values {I : Type} (s : STDPSensorState spec_float I)
  : STDPSensorState R I :=
  mkState (values (a_pre s)) (values (a_post s)).

Definition parameters_values {I : Type} (p : STDPSensorParameters spec_float I)
  : STDPSensorParameters R I :=
  mkParameters (values (eta_p p)) (values (eta_m p))
               (values (tau_ac_inv p)) (values (tau_c_inv p)).

(** ** Inputs the statements refer to *)

(** The zero baseline of the traces. *)
Definition zero_state {P A : Type} {ar : Arith P A} {I : Type}
  : STDPSensorState A I :=
  mkState (tensor (py_lit 0)) (tensor (py_lit 0)).

(** [p._replace(tau_ac_inv=x)] *)
Definition replace_tau_ac_inv {A I : Type}
    (p : STDPSensorParameters A I) (x : Tensor A I)
  : STDPSensorParameters A I :=
  mkParameters (eta_p p) (eta_m p) x (tau_c_inv p).

(** The call with the two synaptic roles exchanged: the spikes, the traces
    and the gains trade places, the time constants stay. *)
Definition swap_state {A I : Type} (s : STDPSensorState A I)
  : STDPSensorState A I :=
  mkState (a_post s) (a_pre s).

Definition swap_gains {A I : Type} (p : STDPSensorParameters A I)
  : STDPSensorParameters A I :=
  mkParameters (eta_m p) (eta_p p) (tau_ac_inv p) (tau_c_inv p).

(** Entry-wise equality of two states. *)
Definition state_eq {A I : Type} (s s' : STDPSensorState A I) : Prop :=
  (a_pre s == a_pre s')%T /\ (a_post s == a_post s')%T.

(** The defaults as the specification lists them. *)
Definition listed_defaults {P A : Type} {ar : Arith P A} {I : Type}
  : STDPSensorParameters A I :=
  mkParameters (tensor (py_lit 1.0)) (tensor (py_lit 1.0))
               (tensor (py_lit 10.0)) (tensor (py_lit 10.0)).

(** The first scenario of the specification: both traces at [0.0], a pre
    spike [1.0], no post spike, gains [1.0], [tau_c_inv = 10.0] and
    [dt = 0.001]. *)
Definition single_pre_spike {P A : Type} (ar : Arith P A) (I : Type)
    (tau_ac : Tensor A I) : Tensor A I * STDPSensorState A I :=
  stdp_sensor_step (tensor (py_lit 1.0)) (tensor (py_lit 0.0))
    (mkState (tensor (py_lit 0.0)) (tensor (py_lit 0.0)))
    (mkParameters (tensor (py_lit 1.0)) (tensor (py_lit 1.0)) tau_ac
                  (tensor (py_lit 10.0)))
    (py_lit 0.001).

(** ** The call on a heap of tensor objects

    A [torch.Tensor] is a mutable object and the two records hold references
    to such objects; the default [p] of the signature is built once, when the
    module is loaded, and shared by every call that omits [p].  The heap
    lists the tensor objects in the order of their creation and a reference
    is a position in that list.  Every operator of lines 49 to 58 is the
    out-of-place one: it reads its operands and creates a new object. *)

Section Heap.
Context {P A : Type} {ar : Arith P A} {I : Type}.

Definition Ref : Type := nat.
Definition Heap : Type := list (Tensor A I).

(** A computation on the heap; [None] is a reference to no object. *)
Definition Run (X : Type) : Type := Heap -> option (X * Heap).

Definition ret {X : Type} (x : X) : Run X := fun h => Some (x, h).

Definition bind {X Y : Type} (m : Run X) (k : X -> Run Y) : Run Y :=
  fun h => match m h with
           | Some (x, h') => k x h'
           | None => None
           end.

(** The tensor a reference points to. *)
Definition load (r : Ref) : Run (Tensor A I) :=
  fun h => match nth_error h r with
           | Some t => Some (t, h)
           | None => None
           end.

(** A new tensor object. *)
Definition new (t : Tensor A I) : Run Ref :=
  fun h => Some (length h, h ++ [t]).

(** [-x], [x * y], [x + y] and [c * x] on references. *)
Definition neg_ref (x : Ref) : Run Ref :=
  bind (load x) (fun a => new (- a)%T).

Definition mul_ref (x y : Ref) : Run Ref :=
  bind (load x) (fun a => bind (load y) (fun b => new (a * b)%T)).

Definition add_ref (x y : Ref) : Run Ref :=
  bind (load x) (fun a => bind (load y) (fun b => new (a + b)%T)).

Definition rmul_ref (c : P) (x : Ref) : Run Ref :=
  bind (load x) (fun a => new (c .* a)%T).

(** The two records, holding references. *)
Record STDPSensorParametersRef : Type := mkParametersRef {
  eta_p_ref : Ref;
  eta_m_ref : Ref;
  tau_ac_inv_ref : Ref;
  tau_c_inv_ref : Ref
}.

Record STDPSensorStateRef : Type := mkStateRef {
  a_pre_ref : Ref;
  a_post_ref : Ref
}.

(** Lines 49 to 59, one object per operator, operands left to right. *)
Definition stdp_sensor_step_heap
    (z_pre z_post : Ref) (s : STDPSensorStateRef)
    (p : STDPSensorParametersRef) (dt : P)
  : Run (Ref * STDPSensorStateRef) :=
  bind (neg_ref (a_pre_ref s)) (fun neg_a_pre =>
  bind (mul_ref (tau_c_inv_ref p) neg_a_pre) (fun da_pre =>
  bind (rmul_ref dt da_pre) (fun dt_da_pre =>
  bind (add_ref (a_pre_ref s) dt_da_pre) (fun a_pre_decayed =>
  bind (neg_ref (a_post_ref s)) (fun neg_a_post =>
  bind (mul_ref (tau_c_inv_ref p) neg_a_post) (fun da_post =>
  bind (rmul_ref dt da_post) (fun dt_da_post =>
  bind (add_ref (a_post_ref s) dt_da_post) (fun a_post_decayed =>
  bind (mul_ref z_pre (eta_p_ref p)) (fun pre_spike =>
  bind (add_ref a_pre_decayed pre_spike) (fun a_pre_new =>
  bind (mul_ref z_post (eta_m_ref p)) (fun post_spike =>
  bind (add_ref a_post_decayed post_spike) (fun a_post_new =>
  bind (mul_ref z_pre a_pre_new) (fun dw_pre =>
  bind (mul_ref z_post a_post_new) (fun dw_post =>
  bind (add_ref dw_pre dw_post) (fun dw =>
  ret (dw, mkStateRef a_pre_new a_post_new)))))))))))))))).

(** A call as Python resolves it: [shared] is the default object of the
    signature, used when [p] is omitted. *)
Definition stdp_sensor_step_heap_call
    (shared : STDPSensorParametersRef)
    (z_pre z_post : Ref) (s : STDPSensorStateRef)
    (p : option STDPSensorParametersRef) (dt : option P)
  : Run (Ref * STDPSensorStateRef) :=
  stdp_sensor_step_heap z_pre z_post s
    (match p with Some p' => p' | None => shared end)
    (match dt with Some dt' => dt' | None => default_dt end).

(** The records behind the references, when every field points to an
    object. *)
Definition load_state (h : Heap) (s : STDPSensorStateRef)
  : option (STDPSensorState A I) :=
  match nth_error h (a_pre_ref s), nth_error h (a_post_ref s) with
  | Some x, Some y => Some (mkState x y)
  | _, _ => None
  end.

(** What a call returned, read back from the heap. *)
Definition load_result (h : Heap) (r : Ref * STDPSensorStateRef)
  : option (Tensor A I * STDPSensorState A I) :=
  match nth_error h (fst r), load_state h (snd r) with
  | Some dw, Some s => Some (dw, s)
  | _, _ => None
  end.

(** The objects of [h] are all still in [h'], each where it was and as it
    was. *)
Definition untouched (h h' : Heap) : Prop :=
  forall r t, nth_error h r = Some t -> nth_error h' r = Some t.

End Heap.

Arguments Heap A I : clear implicits.
Arguments Run A I X : clear implicits.

(** ** Ground facts *)

(** Unfolds one call down to the arithmetic of a single entry. *)
Ltac entrywise :=
  unfold single_pre_spike, listed_defaults, stdp_sensor_step_call,
    stdp_sensor_step, default_parameters, default_dt, zero_state,
    replace_tau_ac_inv, swap_state, swap_gains, state_eq, teq,
    state_values, parameters_values, values, add, mul, neg, rmul,
    tensor in *;
  cbn [fst snd a_pre a_post eta_p eta_m tau_ac_inv tau_c_inv
       py_lit py_div cast eadd emul eneg Real_arith IEEE_arith
       binary64 binary32] in *.

Section Entries.
Context {P A : Type} {ar : Arith P A} {I : Type}.
Implicit Types (z_pre z_post : Tensor A I) (s : STDPSensorState A I).
Implicit Types (p : STDPSensorParameters A I) (dt : P) (i : I).

(** The entries of a call, one position at a time. *)
Lemma a_pre_new_entry z_pre z_post s p dt i :
  a_pre (snd (stdp_sensor_step z_pre z_post s p dt)) i
  = eadd (eadd (a_pre s i)
               (emul (cast dt) (emul (tau_c_inv p i) (eneg (a_pre s i)))))
         (emul (z_pre i) (eta_p p i)).
Proof. reflexivity. Qed.

Lemma a_post_new_entry z_pre z_post s p dt i :
  a_post (snd (stdp_sensor_step z_pre z_post s p dt)) i
  = eadd (eadd (a_post s i)
               (emul (cast dt) (emul (tau_c_inv p i) (eneg (a_post s i)))))
         (emul (z_post i) (eta_m p i)).
Proof. reflexivity. Qed.

Lemma dw_entry z_pre z_post s p dt i :
  fst (stdp_sensor_step z_pre z_post s p dt) i
  = eadd (emul (z_pre i)
               (a_pre (snd (stdp_sensor_step z_pre z_post s p dt)) i))
         (emul (z_post i)
               (a_post (snd (stdp_sensor_step z_pre z_post s p dt)) i)).
Proof. reflexivity. Qed.

End Entries.

(** The step reads its operands one position at a time, in any arithmetic:
    where two calls agree on the entries at [i], so do their results. *)
Lemma stdp_sensor_step_local {P A : Type} {ar : Arith P A} {I : Type}
    (z_pre z_pre' z_post z_post' : Tensor A I) s s' p p' dt i :
  z_pre i = z_pre' i -> z_post i = z_post' i ->
  a_pre s i = a_pre s' i -> a_post s i = a_post s' i ->
  eta_p p i = eta_p p' i -> eta_m p i = eta_m p' i ->
  tau_c_inv p i = tau_c_inv p' i ->
  fst (stdp_sensor_step z_pre z_post s p dt) i
  = fst (stdp_sensor_step z_pre' z_post' s' p' dt) i /\
  a_pre (snd (stdp_sensor_step z_pre z_post s p dt)) i
  = a_pre (snd (stdp_sensor_step z_pre' z_post' s' p' dt)) i /\
  a_post (snd (stdp_sensor_step z_pre z_post s p dt)) i
  = a_post (snd (stdp_sensor_step z_pre' z_post' s' p' dt)) i.
Proof.
  intros Hz Hz' Ha Ha' He He' Ht.
  rewrite !dw_entry, !a_pre_new_entry, !a_post_new_entry.
  rewrite Hz, Hz', Ha, Ha', He, He', Ht. repeat split.
Qed.

Section LocalWitness.
#[local] Existing Instance binary64.

Lemma stdp_sensor_step_local_witness :
  let z : Tensor spec_float nat := fun n => SFofZ 53 1024 (Z.of_nat n) in
  let z' : Tensor spec_float nat := fun _ => SFofZ 53 1024 3 in
  let s := mkState z (tensor (SFlit 1)) in
  let s' := mkState z' (fun n => SFofZ 53 1024 (Z.of_nat n - 2)) in
  fst (stdp_sensor_step z z s default_parameters default_dt) 3%nat
  = fst (stdp_sensor_step z' z' s' default_parameters default_dt) 3%nat.
Proof.
  cbv zeta.
  refine (proj1 (stdp_sensor_step_local
           (fun n => SFofZ 53 1024 (Z.of_nat n)) (fun _ => SFofZ 53 1024 3)
           (fun n => SFofZ 53 1024 (Z.of_nat n)) (fun _ => SFofZ 53 1024 3)
           (mkState (fun n => SFofZ 53 1024 (Z.of_nat n)) (tensor (SFlit 1)))
           (mkState (fun _ => SFofZ 53 1024 3)
                    (fun n => SFofZ 53 1024 (Z.of_nat n - 2)))
           default_parameters default_parameters default_dt 3%nat
           _ _ _ _ _ _ _)); vm_compute; reflexivity.
Defined.

End LocalWitness.

(** ** Facts of floating-point arithmetic *)

Section FloatFacts.
Variables prec emax : Z.

Lemma SFadd_comm (x y : spec_float) :
  SFadd prec emax x y = SFadd prec emax y x.
Proof.
  destruct x as [sx | sx | | sx mx ex], y as [sy | sy | | sy my ey];
    try reflexivity; try (destruct sx, sy; reflexivity).
  unfold SFadd. rewrite (Z.min_comm ey ex). f_equal. apply Z.add_comm.
Qed.

(** A product with a zero is a zero, unless the other factor is infinite or
    NaN, and then it is NaN. *)
Lemma SFmul_zero_l (x y : spec_float) :
  SFis_zero x = true ->
  (SFfinite y = true -> SFis_zero (SFmul prec emax x y) = true) /\
  (SFfinite y = false -> SFmul prec emax x y = S754_nan).
Proof.
  destruct x as [sx | sx | | sx mx ex]; try discriminate. intros _.
  destruct y as [sy | sy | | sy my ey]; split; intro H;
    try discriminate; reflexivity.
Qed.

Lemma SFadd_zero_zero (x y : spec_float) :
  SFis_zero x = true -> SFis_zero y = true ->
  SFis_zero (SFadd prec emax x y) = true.
Proof.
  destruct x as [sx | sx | | sx mx ex]; try discriminate.
  destruct y as [sy | sy | | sy my ey]; try discriminate.
  destruct sx, sy; reflexivity.
Qed.

(** Adding a zero to a float leaves the same number. *)
Lemma SFadd_zero_r (x y : spec_float) :
  SFis_zero y = true -> SFsame (SFadd prec emax x y) x.
Proof.
  destruct y as [sy | sy | | sy my ey]; try discriminate. intros _.
  destruct x as [sx | sx | | sx mx ex]; try (left; reflexivity).
  right. split; [destruct sx, sy |]; reflexivity.
Qed.

(** A sum does not tell two zeros apart, except by the sign of a zero
    result. *)
Lemma SFadd_same_l (x x' y : spec_float) :
  SFsame x x' -> SFsame (SFadd prec emax x y) (SFadd prec emax x' y).
Proof.
  intros [-> | [Hx Hx']]; [left; reflexivity |].
  destruct x as [sx | sx | | sx mx ex]; try discriminate.
  destruct x' as [sx' | sx' | | sx' mx' ex']; try discriminate.
  destruct y as [sy | sy | | sy my ey]; try (left; reflexivity).
  right. split; [destruct sx, sy | destruct sx', sy]; reflexivity.
Qed.

(** What is infinite or NaN stays so through a product and through a
    sum. *)
Lemma SFmul_nonfinite_r (x y : spec_float) :
  SFfinite y = false -> SFfinite (SFmul prec emax x y) = false.
Proof.
  destruct y as [sy | sy | | sy my ey]; try discriminate; intros _;
    destruct x as [sx | sx | | sx mx ex]; reflexivity.
Qed.

Lemma SFadd_nonfinite_l (x y : spec_float) :
  SFfinite x = false -> SFfinite (SFadd prec emax x y) = false.
Proof.
  destruct x as [sx | sx | | sx mx ex]; try discriminate; intros _;
    destruct y as [sy | sy | | sy my ey]; try reflexivity;
    destruct sx, sy; reflexivity.
Qed.

Lemma SFadd_nonfinite_r (x y : spec_float) :
  SFfinite y = false -> SFfinite (SFadd prec emax x y) = false.
Proof. rewrite SFadd_comm. apply SFadd_nonfinite_l. Qed.

End FloatFacts.

(** The numbers floats stand for. *)
Lemma Q2R_zero : Q2R 0 = 0.
Proof. unfold Q2R. simpl. lra. Qed.


Lemma SF2R_opp (x : spec_float) : SF2R (SFopp x) = - SF2R x.
Proof.
  unfold SF2R.
  destruct x as [sx | sx | | sx mx ex]; cbn [SFopp SF2Q];
    rewrite ?Q2R_zero; try lra.
  rewrite !Q2R_mult. destruct sx; cbn [negb cond_Zopp];
    unfold Q2R, inject_Z; cbn [Qnum Qden]; rewrite ?opp_IZR; lra.
Qed.

Lemma exact_add_sound (prec emax : Z) (x y : spec_float) :
  exact_add prec emax x y = true ->
  SF2R (SFadd prec emax x y) = SF2R x + SF2R y.
Proof.
  unfold exact_add, SF2R. intros H.
  apply andb_true_iff in H. destruct H as [_ H].
  apply Qeq_bool_iff in H. rewrite (Qeq_eqR _ _ H). apply Q2R_plus.
Qed.

Lemma exact_mul_sound (prec emax : Z) (x y : spec_float) :
  exact_mul prec emax x y = true ->
  SF2R (SFmul prec emax x y) = SF2R x * SF2R y.
Proof.
  unfold exact_mul, SF2R. intros H.
  apply andb_true_iff in H. destruct H as [_ H].
  apply Qeq_bool_iff in H. rewrite (Qeq_eqR _ _ H). apply Q2R_mult.
Qed.

(** The number of a float whose fraction is known. *)
Lemma SF2R_eval (x : spec_float) (q : Q) :
  Qeq_bool (SF2Q x) q = true -> SF2R x = Q2R q.
Proof. intros H. apply Qeq_eqR. now apply Qeq_bool_iff. Qed.

(** Where the five operations of a trace are exact, the new trace stands
    for the number the formula gives on the numbers of the operands. *)
Lemma exact_trace_sound (prec emax : Z) (z a eta tau dt : spec_float) :
  exact_trace prec emax z a eta tau dt = true ->
  SF2R (SFadd prec emax
          (SFadd prec emax a
             (SFmul prec emax dt (SFmul prec emax tau (SFopp a))))
          (SFmul prec emax z eta))
  = SF2R a + SF2R dt * (SF2R tau * - SF2R a) + SF2R z * SF2R eta.
Proof.
  unfold exact_trace. cbv zeta. intros H.
  apply andb_true_iff in H. destruct H as [H H5].
  apply andb_true_iff in H. destruct H as [H H4].
  apply andb_true_iff in H. destruct H as [H H3].
  apply andb_true_iff in H. destruct H as [H1 H2].
  rewrite (exact_add_sound _ _ _ _ H5), (exact_add_sound _ _ _ _ H3),
    (exact_mul_sound _ _ _ _ H4), (exact_mul_sound _ _ _ _ H2),
    (exact_mul_sound _ _ _ _ H1), SF2R_opp.
  reflexivity.
Qed.

(** Where a call is exact at a position, its results stand there for the
    numbers the same call returns in real arithmetic on the numbers of its
    operands. *)
Lemma stdp_sensor_step_exact (prec emax : Z) {I : Type}
    (z_pre z_post : Tensor spec_float I) (s : STDPSensorState spec_float I)
    (p : STDPSensorParameters spec_float I) (dt : spec_float) (i : I) :
  exact_step prec emax z_pre z_post s p dt i = true ->
  let r := stdp_sensor_step (ar := IEEE_arith prec emax)
             z_pre z_post s p dt in
  let r' := stdp_sensor_step (ar := Real_arith)
              (values z_pre) (values z_post) (state_values s)
              (parameters_values p) (SF2R (SFcast prec emax dt)) in
  SF2R (fst r i) = fst r' i /\
  SF2R (a_pre (snd r) i) = a_pre (snd r') i /\
  SF2R (a_post (snd r) i) = a_post (snd r') i.
Proof.
  unfold exact_step. cbv zeta. intros H.
  apply andb_true_iff in H. destruct H as [H Hdw].
  apply andb_true_iff in H. destruct H as [Hpre Hpost].
  apply exact_trace_sound in Hpre. apply exact_trace_sound in Hpost.
  unfold exact_dw in Hdw.
  apply andb_true_iff in Hdw. destruct Hdw as [Hdw Hsum].
  apply andb_true_iff in Hdw. destruct Hdw as [Hdw1 Hdw2].
  apply exact_add_sound in Hsum.
  apply exact_mul_sound in Hdw1. apply exact_mul_sound in Hdw2.
  assert (Ha : SF2R (a_pre (snd (stdp_sensor_step (ar := IEEE_arith prec emax)
                                   z_pre z_post s p dt)) i)
               = a_pre (snd (stdp_sensor_step (ar := Real_arith)
                               (values z_pre) (values z_post) (state_values s)
                               (parameters_values p)
                               (SF2R (SFcast prec emax dt)))) i)
    by exact Hpre.
  assert (Hb : SF2R (a_post (snd (stdp_sensor_step
                                    (ar := IEEE_arith prec emax)
                                    z_pre z_post s p dt)) i)
               = a_post (snd (stdp_sensor_step (ar := Real_arith)
                                (values z_pre) (values z_post)
                                (state_values s) (parameters_values p)
                                (SF2R (SFcast prec emax dt)))) i)
    by exact Hpost.
  split; [| split; assumption].
  rewrite (dw_entry (ar := Real_arith)), <- Ha, <- Hb.
  rewrite (dw_entry (ar := IEEE_arith prec emax)).
  cbn [eadd emul IEEE_arith Real_arith].
  rewrite Hsum, Hdw1, Hdw2. reflexivity.
Qed.

(** Evaluates the number of a closed float in the goal. *)
Ltac float_number x :=
  let q := eval vm_compute in (Qred (SF2Q x)) in
  let H := fresh "Hval" in
  assert (H : SF2R x = Q2R q)
    by (apply SF2R_eval; vm_compute; reflexivity);
  rewrite H; clear H.

Ltac float_numbers :=
  repeat match goal with
         | |- context [SF2R ?x] => float_number x
         end;
  unfold Q2R; cbn [Qnum Qden].

(** ** The update rule *)

(** C1, as the code has it.  In the arithmetic of its tensors the step
    computes, entry by entry, the decayed traces
    [a + dt * (tau_c_inv * (-a))], the product grouped as lines 49 to 53
    group it, then the new traces [a_decayed + z * eta] (with [eta_p] for
    the pre trace and [eta_m] for the post trace), and returns
    [dw = z_pre * a_pre_new + z_post * a_post_new] with the state
    [(a_pre_new, a_post_new)].  Where no floating-point operation of the call
    rounds or overflows at a position, the results stand there for the
    numbers of the formulas as the specification writes them,
    [a + dt * tau_c_inv * (-a)]. *)
Theorem stdp_sensor_step_update_rule :
  (forall (P A : Type) (ar : Arith P A) (I : Type)
          (z_pre z_post : Tensor A I) (s : STDPSensorState A I)
          (p : STDPSensorParameters A I) (dt : P),
     let a_pre_decayed := (a_pre s + dt .* (tau_c_inv p * - a_pre s))%T in
     let a_post_decayed := (a_post s + dt .* (tau_c_inv p * - a_post s))%T in
     let a_pre_new := (a_pre_decayed + z_pre * eta_p p)%T in
     let a_post_new := (a_post_decayed + z_post * eta_m p)%T in
     let dw := (z_pre * a_pre_new + z_post * a_post_new)%T in
     stdp_sensor_step z_pre z_post s p dt = (dw, mkState a_pre_new a_post_new))
  /\
  (forall (prec emax : Z) (I : Type)
          (z_pre z_post : Tensor spec_float I)
          (s : STDPSensorState spec_float I)
          (p : STDPSensorParameters spec_float I) (dt : spec_float) (i : I),
     exact_step prec emax z_pre z_post s p dt i = true ->
     let r := stdp_sensor_step (ar := IEEE_arith prec emax)
                z_pre z_post s p dt in
     let d := SF2R (SFcast prec emax dt) in
     let a_pre_decayed :=
       SF2R (a_pre s i) + d * SF2R (tau_c_inv p i) * - SF2R (a_pre s i) in
     let a_post_decayed :=
       SF2R (a_post s i) + d * SF2R (tau_c_inv p i) * - SF2R (a_post s i) in
     let a_pre_new := a_pre_decayed + SF2R (z_pre i) * SF2R (eta_p p i) in
     let a_post_new := a_post_decayed + SF2R (z_post i) * SF2R (eta_m p i) in
     SF2R (a_pre (snd r) i) = a_pre_new /\
     SF2R (a_post (snd r) i) = a_post_new /\
     SF2R (fst r i) = SF2R (z_pre i) * a_pre_new + SF2R (z_post i) * a_post_new).
Proof.
  split.
  - reflexivity.
  - intros prec emax I z_pre z_post s p dt i Hexact. cbv zeta.
    destruct (stdp_sensor_step_exact prec emax z_pre z_post s p dt i Hexact)
      as (Hdw & Hpre & Hpost).
    rewrite Hdw, Hpre, Hpost. entrywise. repeat split; ring.
Qed.

Section UpdateRuleInputs.
#[local] Existing Instance binary64.

Lemma stdp_sensor_step_update_rule_witness :
  let z_pre : Tensor spec_float unit := tensor (SFlit 1) in
  let z_post : Tensor spec_float unit := tensor (SFlit 0) in
  let s := mkState (tensor (SFlit 1)) (tensor (SFlit 2)) in
  let p := mkParameters (tensor (SFlit 1)) (tensor (SFlit 1))
                        (tensor (SFlit 10)) (tensor (SFlit 2)) in
  let dt := SFlit 0.25 in
  let r := stdp_sensor_step z_pre z_post s p dt in
  let a_pre_new :=
    SF2R (a_pre s tt)
    + SF2R (SFcast 53 1024 dt) * SF2R (tau_c_inv p tt) * - SF2R (a_pre s tt)
    + SF2R (z_pre tt) * SF2R (eta_p p tt) in
  exact_step 53 1024 z_pre z_post s p dt tt = true /\
  SF2R (a_pre (snd r) tt) = a_pre_new.
Proof.
  cbv zeta.
  assert (Hexact : exact_step 53 1024
                     (tensor (SFlit 1)) (tensor (SFlit 0))
                     (mkState (tensor (SFlit 1)) (tensor (SFlit 2)))
                     (mkParameters (tensor (SFlit 1)) (tensor (SFlit 1))
                                   (tensor (SFlit 10)) (tensor (SFlit 2)))
                     (SFlit 0.25) tt = true)
    by (vm_compute; reflexivity).
  split; [exact Hexact |].
  exact (proj1 (proj2 stdp_sensor_step_update_rule 53%Z 1024%Z unit
                  (tensor (SFlit 1)) (tensor (SFlit 0))
                  (mkState (tensor (SFlit 1)) (tensor (SFlit 2)))
                  (mkParameters (tensor (SFlit 1)) (tensor (SFlit 1))
                                (tensor (SFlit 10)) (tensor (SFlit 2)))
                  (SFlit 0.25) tt Hexact)).
Defined.

(** C1, as it is written, fails in the arithmetic of the code: with
    binary64 tensors, [a_pre = 3.0], [tau_c_inv = 3.0], [dt = 0.1] and no
    spike, the code returns the trace [2.1000000000000001]
    ([4728779608739021 * 2^-51]) where the specification's
    [a + dt * tau_c_inv * (-a)] gives [2.0999999999999996]
    ([4728779608739020 * 2^-51]). *)
Lemma stdp_sensor_step_grouping_differs :
  let z : Tensor spec_float unit := tensor (SFlit 0) in
  let s := mkState (tensor (SFlit 3)) (tensor (SFlit 0)) in
  let p := mkParameters (tensor (SFlit 1)) (tensor (SFlit 1))
                        (tensor (SFlit 10)) (tensor (SFlit 3)) in
  let dt := SFlit 0.1 in
  let specified := (a_pre s + dt .* tau_c_inv p * - a_pre s + z * eta_p p)%T in
  a_pre (snd (stdp_sensor_step z z s p dt)) tt
  = S754_finite false 4728779608739021 (-51) /\
  specified tt = S754_finite false 4728779608739020 (-51) /\
  ~ (a_pre (snd (stdp_sensor_step z z s p dt)) == specified)%T.
Proof.
  cbv zeta.
  split; [vm_compute; reflexivity |].
  split; [vm_compute; reflexivity |].
  intros H. specialize (H tt). vm_compute in H. discriminate H.
Qed.

End UpdateRuleInputs.

(** C2.  The results do not depend on [tau_ac_inv], in any arithmetic:
    replacing that field by any tensor leaves [dw] and the new state as they
    were. *)
Theorem stdp_sensor_step_ignores_tau_ac_inv
    {P A : Type} {ar : Arith P A} {I : Type}
    (z_pre z_post : Tensor A I) (s : STDPSensorState A I)
    (p : STDPSensorParameters A I) (dt : P) (x : Tensor A I) :
  stdp_sensor_step z_pre z_post s (replace_tau_ac_inv p x) dt
  = stdp_sensor_step z_pre z_post s p dt.
Proof. reflexivity. Qed.

(** The same, for two parameter records that agree on every other field. *)
Lemma stdp_sensor_step_tau_ac_inv_only
    {P A : Type} {ar : Arith P A} {I : Type}
    (z_pre z_post : Tensor A I) s (p p' : STDPSensorParameters A I) dt :
  eta_p p = eta_p p' -> eta_m p = eta_m p' -> tau_c_inv p = tau_c_inv p' ->
  stdp_sensor_step z_pre z_post s p dt
  = stdp_sensor_step z_pre z_post s p' dt.
Proof.
  destruct p, p'. cbn [eta_p eta_m tau_c_inv].
  intros -> -> ->. reflexivity.
Qed.

(** ** Facts of real arithmetic *)



(** The zero state holds [+0] in every format. *)
Lemma zero_state_entries (prec emax : Z) {I : Type} (i : I) :
  a_pre (zero_state (ar := IEEE_arith prec emax)) i = S754_zero false /\
  a_post (zero_state (ar := IEEE_arith prec emax)) i = S754_zero false.
Proof. split; vm_compute; reflexivity. Qed.

(** ** Scaling the spikes *)

(** C3, as the code has it.  From the zero state, and where no
    floating-point operation of the two calls rounds or overflows at a
    position, [dw] stands there for [z_pre^2 * eta_p + z_post^2 * eta_m], so
    that spikes [k] times as large make the new traces [k] times and [dw]
    [k * k] times as large. *)
Theorem stdp_sensor_step_scaling (prec emax : Z) {I : Type}
    (z_pre z_post zk_pre zk_post : Tensor spec_float I)
    (p : STDPSensorParameters spec_float I) (dt : spec_float)
    (k : R) (i : I) :
  exact_step prec emax z_pre z_post
    (zero_state (ar := IEEE_arith prec emax)) p dt i = true ->
  exact_step prec emax zk_pre zk_post
    (zero_state (ar := IEEE_arith prec emax)) p dt i = true ->
  SF2R (zk_pre i) = k * SF2R (z_pre i) ->
  SF2R (zk_post i) = k * SF2R (z_post i) ->
  let r := stdp_sensor_step (ar := IEEE_arith prec emax)
             z_pre z_post (zero_state (ar := IEEE_arith prec emax)) p dt in
  let rk := stdp_sensor_step (ar := IEEE_arith prec emax)
              zk_pre zk_post (zero_state (ar := IEEE_arith prec emax)) p dt in
  SF2R (fst r i)
  = SF2R (z_pre i) * SF2R (z_pre i) * SF2R (eta_p p i)
    + SF2R (z_post i) * SF2R (z_post i) * SF2R (eta_m p i) /\
  SF2R (fst rk i) = k * k * SF2R (fst r i) /\
  SF2R (a_pre (snd rk) i) = k * SF2R (a_pre (snd r) i) /\
  SF2R (a_post (snd rk) i) = k * SF2R (a_post (snd r) i).
Proof.
  intros Hexact Hexactk Hpre Hpost. cbv zeta.
  destruct (stdp_sensor_step_exact prec emax _ _ _ _ _ _ Hexact)
    as (Hdw & Ha & Hb).
  destruct (stdp_sensor_step_exact prec emax _ _ _ _ _ _ Hexactk)
    as (Hdwk & Hak & Hbk).
  rewrite Hdw, Hdwk, Ha, Hak, Hb, Hbk.
  rewrite !(dw_entry (ar := Real_arith)),
    !(a_pre_new_entry (ar := Real_arith)),
    !(a_post_new_entry (ar := Real_arith)).
  destruct (zero_state_entries prec emax i) as [Hz Hz'].
  unfold state_values, parameters_values, values.
  cbn [a_pre a_post eta_p eta_m tau_c_inv eadd emul eneg cast Real_arith].
  rewrite Hz, Hz', Hpre, Hpost.
  replace (SF2R (S754_zero false)) with 0 by (symmetry; apply Q2R_zero).
  repeat split; ring.
Qed.

Section ScalingInputs.
#[local] Existing Instance binary64.

Lemma stdp_sensor_step_scaling_witness :
  let z_pre : Tensor spec_float unit := tensor (SFlit 1) in
  let z_post : Tensor spec_float unit := tensor (SFlit 0.5) in
  let zk_pre : Tensor spec_float unit := tensor (SFlit 2) in
  let zk_post : Tensor spec_float unit := tensor (SFlit 1) in
  let p := mkParameters (tensor (SFlit 1)) (tensor (SFlit 1))
                        (tensor (SFlit 10)) (tensor (SFlit 2)) in
  let dt := SFlit 0.25 in
  SF2R (fst (stdp_sensor_step zk_pre zk_post zero_state p dt) tt)
  = 2 * 2 * SF2R (fst (stdp_sensor_step z_pre z_post zero_state p dt) tt).
Proof.
  cbv zeta.
  refine (proj1 (proj2 (stdp_sensor_step_scaling 53 1024
            (tensor (SFlit 1)) (tensor (SFlit 0.5))
            (tensor (SFlit 2)) (tensor (SFlit 1))
            (mkParameters (tensor (SFlit 1)) (tensor (SFlit 1))
                          (tensor (SFlit 10)) (tensor (SFlit 2)))
            (SFlit 0.25) 2 tt _ _ _ _))).
  - vm_compute. reflexivity.
  - vm_compute. reflexivity.
  - entrywise. float_numbers. lra.
  - entrywise. float_numbers. lra.
Defined.

(** C3, as it is written, fails: from the zero state, with the default
    parameters and [dt], a single pre-synaptic spike of size one gives
    [dw = 1]; doubled, it gives [dw = 4] and not [2]. *)
Lemma stdp_sensor_step_not_linear :
  let z_pre : Tensor spec_float unit := tensor (SFlit 1.0) in
  let z_post : Tensor spec_float unit := tensor (SFlit 0.0) in
  let k := SFlit 2 in
  let r := stdp_sensor_step z_pre z_post zero_state
             default_parameters default_dt in
  let rk := stdp_sensor_step (k .* z_pre) (k .* z_post) zero_state
              default_parameters default_dt in
  fst r tt = SFofZ 53 1024 1 /\ fst rk tt = SFofZ 53 1024 4 /\
  (k .* fst r)%T tt = SFofZ 53 1024 2 /\
  ~ (fst rk == k .* fst r)%T.
Proof.
  cbv zeta.
  split; [vm_compute; reflexivity |].
  split; [vm_compute; reflexivity |].
  split; [vm_compute; reflexivity |].
  intros H. specialize (H tt). vm_compute in H. discriminate H.
Qed.

End ScalingInputs.

(** ** Decay without spikes *)


Section SilentDecayInputs.
#[local] Existing Instance binary64.



End SilentDecayInputs.

(** ** The scenarios of the specification *)

(** C5.  With both traces at [0.0], [z_pre = 1.0], [z_post = 0.0], both
    gains [1.0], [tau_c_inv = 10.0] and [dt = 0.001], the step returns
    [dw = 1.0] and the state [(1.0, 0.0)], whatever [tau_ac_inv] is: in real
    arithmetic, and bit for bit in binary64 and in binary32. *)
Theorem stdp_sensor_step_single_pre_spike :
  (forall (I : Type) (tau_ac : Tensor R I),
     let r := single_pre_spike Real_arith I tau_ac in
     (fst r == tensor (Q2R 1.0))%T /\
     state_eq (snd r) (mkState (tensor (Q2R 1.0)) (tensor (Q2R 0.0))))
  /\
  (forall (I : Type) (tau_ac : Tensor spec_float I),
     let r := single_pre_spike binary64 I tau_ac in
     (fst r == tensor (ar := binary64) (SFlit 1.0))%T /\
     state_eq (snd r) (mkState (tensor (ar := binary64) (SFlit 1.0))
                               (tensor (ar := binary64) (SFlit 0.0))))
  /\
  (forall (I : Type) (tau_ac : Tensor spec_float I),
     let r := single_pre_spike binary32 I tau_ac in
     (fst r == tensor (ar := binary32) (SFlit 1.0))%T /\
     state_eq (snd r) (mkState (tensor (ar := binary32) (SFlit 1.0))
                               (tensor (ar := binary32) (SFlit 0.0)))).
Proof.
  split; [| split]; intros I tau_ac; cbv zeta.
  - split; [| split]; intro i; entrywise; unfold Q2R; cbn [Qnum Qden]; lra.
  - split; [| split]; intro i; entrywise; vm_compute; reflexivity.
  - split; [| split]; intro i; entrywise; vm_compute; reflexivity.
Qed.

(** ** A zero time step *)

(** C6, as the code has it.  With [dt = 0] ([+0] or [-0]), and where
    [tau_c_inv * (-a)] is finite, each new trace is the same number as the
    old one plus the spike times its gain; the two can differ only in the
    sign of a zero. *)
Theorem stdp_sensor_step_dt_zero (prec emax : Z) {I : Type}
    (z_pre z_post : Tensor spec_float I) (s : STDPSensorState spec_float I)
    (p : STDPSensorParameters spec_float I) (dt : spec_float) (i : I) :
  SFis_zero dt = true ->
  let s' := snd (stdp_sensor_step (ar := IEEE_arith prec emax)
                   z_pre z_post s p dt) in
  (SFfinite (SFmul prec emax (tau_c_inv p i) (SFopp (a_pre s i))) = true ->
   SFsame (a_pre s' i)
     (SFadd prec emax (a_pre s i) (SFmul prec emax (z_pre i) (eta_p p i))))
  /\
  (SFfinite (SFmul prec emax (tau_c_inv p i) (SFopp (a_post s i))) = true ->
   SFsame (a_post s' i)
     (SFadd prec emax (a_post s i) (SFmul prec emax (z_post i) (eta_m p i)))).
Proof.
  intros Hdt s'. subst s'.
  assert (Hcast : SFis_zero (SFcast prec emax dt) = true)
    by (destruct dt; try discriminate; reflexivity).
  rewrite (a_pre_new_entry (ar := IEEE_arith prec emax)),
    (a_post_new_entry (ar := IEEE_arith prec emax)).
  cbn [eadd emul eneg cast IEEE_arith].
  split; intros Hfin; apply SFadd_same_l, SFadd_zero_r;
    now apply (proj1 (SFmul_zero_l prec emax _ _ Hcast)).
Qed.

Section ZeroStepInputs.
#[local] Existing Instance binary64.

Lemma stdp_sensor_step_dt_zero_witness :
  let z_pre : Tensor spec_float unit := tensor (SFlit 1) in
  let z_post : Tensor spec_float unit := tensor (SFlit 0) in
  let s := mkState (tensor (SFlit 0.3)) (tensor (SFlit (-7))) in
  let p : STDPSensorParameters spec_float unit := default_parameters in
  SFsame (a_pre (snd (stdp_sensor_step z_pre z_post s p (SFlit 0))) tt)
         (SFadd 53 1024 (a_pre s tt)
            (SFmul 53 1024 (z_pre tt) (eta_p p tt))).
Proof.
  cbv zeta.
  refine (proj1 (stdp_sensor_step_dt_zero 53 1024
            (tensor (SFlit 1)) (tensor (SFlit 0))
            (mkState (tensor (SFlit 0.3)) (tensor (SFlit (-7))))
            default_parameters (SFlit 0) tt _) _);
    vm_compute; reflexivity.
Defined.

(** C6, as it is written, fails: the code still multiplies [0.0] by
    [tau_c_inv * (-a)].  With binary64 tensors, [a_pre = 1e308], the default
    parameters and [dt = 0.0], that product overflows to [-inf],
    [0.0 * -inf] is NaN and so is the new trace, where
    [a_pre + z_pre * eta_p] is finite. *)
Lemma stdp_sensor_step_dt_zero_fails :
  let z_pre : Tensor spec_float unit := tensor (SFlit 1) in
  let z_post : Tensor spec_float unit := tensor (SFlit 0) in
  let s := mkState (tensor (SFlit (10 ^ 308))) (tensor (SFlit 0)) in
  let p : STDPSensorParameters spec_float unit := default_parameters in
  let dt := SFlit 0 in
  SFmul 53 1024 (tau_c_inv p tt) (SFopp (a_pre s tt)) = S754_infinity true /\
  a_pre (snd (stdp_sensor_step z_pre z_post s p dt)) tt = S754_nan /\
  SFfinite ((a_pre s + z_pre * eta_p p)%T tt) = true /\
  ~ state_eq (snd (stdp_sensor_step z_pre z_post s p dt))
             (mkState (a_pre s + z_pre * eta_p p)%T
                      (a_post s + z_post * eta_m p)%T).
Proof.
  cbv zeta.
  split; [vm_compute; reflexivity |].
  split; [vm_compute; reflexivity |].
  split; [vm_compute; reflexivity |].
  intros [H _]. specialize (H tt). vm_compute in H. discriminate H.
Qed.

End ZeroStepInputs.

(** ** The defaults *)



Section Defaults.
Variables prec emax : Z.
#[local] Hint Extern 0 (Arith spec_float _) =>
  exact (IEEE_arith prec emax) : typeclass_instances.
#[local] Hint Extern 0 (Arith _ spec_float) =>
  exact (IEEE_arith prec emax) : typeclass_instances.



End Defaults.

(** ** Zero spikes *)

(** C9, as the code has it.  Where both spike inputs are zero ([+0] or
    [-0]), the returned [dw] is a zero provided both returned traces are
    finite there; if either is infinite or NaN, [dw] is NaN. *)
Theorem stdp_sensor_step_silent_dw (prec emax : Z) {I : Type}
    (z_pre z_post : Tensor spec_float I) (s : STDPSensorState spec_float I)
    (p : STDPSensorParameters spec_float I) (dt : spec_float) (i : I) :
  SFis_zero (z_pre i) = true -> SFis_zero (z_post i) = true ->
  let r := stdp_sensor_step (ar := IEEE_arith prec emax)
             z_pre z_post s p dt in
  (SFfinite (a_pre (snd r) i) = true -> SFfinite (a_post (snd r) i) = true ->
   SFis_zero (fst r i) = true)
  /\
  (SFfinite (a_pre (snd r) i) = false \/ SFfinite (a_post (snd r) i) = false ->
   fst r i = S754_nan).
Proof.
  intros Hpre Hpost r. subst r.
  rewrite (dw_entry (ar := IEEE_arith prec emax)).
  cbn [eadd emul IEEE_arith].
  destruct (SFmul_zero_l prec emax (z_pre i)
              (a_pre (snd (stdp_sensor_step (ar := IEEE_arith prec emax)
                             z_pre z_post s p dt)) i) Hpre) as [Hpz Hpn].
  destruct (SFmul_zero_l prec emax (z_post i)
              (a_post (snd (stdp_sensor_step (ar := IEEE_arith prec emax)
                              z_pre z_post s p dt)) i) Hpost) as [Hqz Hqn].
  split.
  - intros Ha Hb. apply SFadd_zero_zero; auto.
  - intros [Ha | Hb].
    + rewrite (Hpn Ha). reflexivity.
    + rewrite (Hqn Hb).
      destruct (SFmul prec emax (z_pre i) _); reflexivity.
Qed.

Section SilentInputs.
#[local] Existing Instance binary64.

Lemma stdp_sensor_step_silent_dw_witness :
  let z : Tensor spec_float unit := tensor (SFlit 0) in
  let s := mkState (tensor (SFlit 0.3)) (tensor (SFlit (-5))) in
  SFis_zero (fst (stdp_sensor_step z z s default_parameters default_dt) tt)
  = true.
Proof.
  cbv zeta.
  refine (proj1 (stdp_sensor_step_silent_dw 53 1024
            (tensor (SFlit 0)) (tensor (SFlit 0))
            (mkState (tensor (SFlit 0.3)) (tensor (SFlit (-5))))
            default_parameters default_dt tt _ _) _ _);
    vm_compute; reflexivity.
Defined.

(** C9, as it is written, fails.  With binary64 tensors, no spikes,
    [a_pre = 1e308] and the default parameters and [dt],
    [tau_c_inv * (-a_pre)] overflows, the new pre trace is [-inf] and
    [dw = 0.0 * -inf + ...] is NaN. *)
Lemma stdp_sensor_step_silent_dw_fails :
  let z : Tensor spec_float unit := tensor (SFlit 0) in
  let s := mkState (tensor (SFlit (10 ^ 308))) (tensor (SFlit 0)) in
  let r := stdp_sensor_step z z s default_parameters default_dt in
  SFfinite (a_pre s tt) = true /\
  a_pre (snd r) tt = S754_infinity true /\
  fst r tt = S754_nan /\
  SFis_zero (fst r tt) = false.
Proof. cbv zeta. repeat split; vm_compute; reflexivity. Qed.

End SilentInputs.

(** ** Symmetry *)

(** C10.  Exchanging the two synaptic roles, that is [z_pre] with [z_post],
    [a_pre] with [a_post] and [eta_p] with [eta_m], exchanges the two new
    traces and leaves [dw] as it was: in real arithmetic, and bit for bit in
    every floating-point format. *)
Theorem stdp_sensor_step_role_swap :
  (forall (I : Type) (z_pre z_post : Tensor R I) (s : STDPSensorState R I)
          (p : STDPSensorParameters R I) (dt : R),
     let r := stdp_sensor_step z_pre z_post s p dt in
     let r' := stdp_sensor_step z_post z_pre (swap_state s) (swap_gains p) dt in
     snd r' = swap_state (snd r) /\ (fst r' == fst r)%T)
  /\
  (forall (prec emax : Z) (I : Type) (z_pre z_post : Tensor spec_float I)
          (s : STDPSensorState spec_float I)
          (p : STDPSensorParameters spec_float I) (dt : spec_float),
     let r := stdp_sensor_step (ar := IEEE_arith prec emax)
                z_pre z_post s p dt in
     let r' := stdp_sensor_step (ar := IEEE_arith prec emax)
                 z_post z_pre (swap_state s) (swap_gains p) dt in
     snd r' = swap_state (snd r) /\ (fst r' == fst r)%T).
Proof.
  split.
  - intros I z_pre z_post s p dt. cbv zeta. split; [reflexivity |].
    intro i. rewrite !(dw_entry (ar := Real_arith)). apply Rplus_comm.
  - intros prec emax I z_pre z_post s p dt. cbv zeta. split; [reflexivity |].
    intro i. rewrite !(dw_entry (ar := IEEE_arith prec emax)).
    apply SFadd_comm.
Qed.

(** ** The call on the heap *)

Section HeapFacts.
Context {P A : Type} {ar : Arith P A} {I : Type}.
Implicit Types (h : Heap A I) (t a b : Tensor A I) (r x y : Ref).

Lemma untouched_refl h : untouched h h.
Proof. intros r t H. exact H. Qed.

Lemma untouched_trans h h' h'' :
  untouched h h' -> untouched h' h'' -> untouched h h''.
Proof. intros H1 H2 r t H. apply H2, H1, H. Qed.

Lemma untouched_new h t : untouched h (h ++ [t]).
Proof.
  intros r t' H. rewrite nth_error_app1; [exact H |].
  apply nth_error_Some. rewrite H. discriminate.
Qed.

Lemma new_points h t : nth_error (h ++ [t]) (length h) = Some t.
Proof. rewrite nth_error_app2, Nat.sub_diag by apply Nat.le_refl. reflexivity. Qed.

(** Each operator, on operands that exist, creates one object holding the
    result, at the end of the heap. *)
Lemma neg_ref_run h x a :
  nth_error h x = Some a ->
  neg_ref x h = Some (length h, h ++ [(- a)%T]).
Proof. intros Hx. unfold neg_ref, bind, load, new. now rewrite Hx. Qed.

Lemma rmul_ref_run (c : P) h x a :
  nth_error h x = Some a ->
  rmul_ref c x h = Some (length h, h ++ [(c .* a)%T]).
Proof. intros Hx. unfold rmul_ref, bind, load, new. now rewrite Hx. Qed.

Lemma mul_ref_run h x y a b :
  nth_error h x = Some a -> nth_error h y = Some b ->
  mul_ref x y h = Some (length h, h ++ [(a * b)%T]).
Proof. intros Hx Hy. unfold mul_ref, bind, load, new. now rewrite Hx, Hy. Qed.

Lemma add_ref_run h x y a b :
  nth_error h x = Some a -> nth_error h y = Some b ->
  add_ref x y h = Some (length h, h ++ [(a + b)%T]).
Proof. intros Hx Hy. unfold add_ref, bind, load, new. now rewrite Hx, Hy. Qed.

Lemma bind_some {X Y : Type} (m : Run A I X) (k : X -> Run A I Y) h
    (v : X) h' :
  m h = Some (v, h') -> bind m k h = k v h'.
Proof. intros H. unfold bind. rewrite H. reflexivity. Qed.

Lemma load_result_untouched h h' (res : Ref * STDPSensorStateRef) out :
  untouched h h' -> load_result h res = Some out ->
  load_result h' res = Some out.
Proof.
  intros Hun. unfold load_result, load_state.
  destruct (nth_error h (fst res)) as [dw |] eqn:Hdw; [| discriminate].
  destruct (nth_error h (a_pre_ref (snd res))) as [x |] eqn:Hx;
    [| discriminate].
  destruct (nth_error h (a_post_ref (snd res))) as [y |] eqn:Hy;
    [| discriminate].
  intros H. rewrite (Hun _ _ Hdw), (Hun _ _ Hx), (Hun _ _ Hy). exact H.
Qed.

(** One operator of the call: runs it on the objects its operands point to,
    moves every known object to the new heap and keeps the heap the call
    started from in view. *)
Ltac heap_run spec Hacc :=
  lazymatch type of spec with
  | _ = Some (_, ?h ++ [?t]) =>
    rewrite (bind_some _ _ _ _ _ spec);
    repeat match goal with
           | H : nth_error h _ = Some _ |- _ => apply (untouched_new h t) in H
           end;
    pose proof (new_points h t);
    apply (fun H => untouched_trans _ _ _ H (untouched_new h t)) in Hacc
  end.

Ltac heap_op Hacc :=
  match goal with
  | Hx : nth_error ?h ?x = Some _
    |- exists _ _ _, bind (neg_ref ?x) _ ?h = _ /\ _ =>
    heap_run (neg_ref_run h x _ Hx) Hacc
  | Hx : nth_error ?h ?x = Some _
    |- exists _ _ _, bind (rmul_ref ?c ?x) _ ?h = _ /\ _ =>
    heap_run (rmul_ref_run c h x _ Hx) Hacc
  | Hx : nth_error ?h ?x = Some _, Hy : nth_error ?h ?y = Some _
    |- exists _ _ _, bind (mul_ref ?x ?y) _ ?h = _ /\ _ =>
    heap_run (mul_ref_run h x y _ _ Hx Hy) Hacc
  | Hx : nth_error ?h ?x = Some _, Hy : nth_error ?h ?y = Some _
    |- exists _ _ _, bind (add_ref ?x ?y) _ ?h = _ /\ _ =>
    heap_run (add_ref_run h x y _ _ Hx Hy) Hacc
  end.

(** The call on the heap creates its results and touches nothing else; what
    it returns is what the step returns on the tensors its operands point
    to, in three objects that did not exist before.  The [tau_ac_inv] field
    is never followed. *)
Lemma stdp_sensor_step_heap_spec h z_pre z_post
    (s : STDPSensorStateRef) (p : STDPSensorParametersRef) (dt : P)
    (zp zq ap aq ep em tac tc : Tensor A I) :
  nth_error h z_pre = Some zp -> nth_error h z_post = Some zq ->
  nth_error h (a_pre_ref s) = Some ap -> nth_error h (a_post_ref s) = Some aq ->
  nth_error h (eta_p_ref p) = Some ep -> nth_error h (eta_m_ref p) = Some em ->
  nth_error h (tau_c_inv_ref p) = Some tc ->
  exists dw sr h',
    stdp_sensor_step_heap z_pre z_post s p dt h = Some ((dw, sr), h') /\
    untouched h h' /\
    load_result h' (dw, sr)
    = Some (stdp_sensor_step zp zq (mkState ap aq)
              (mkParameters ep em tac tc) dt) /\
    (length h <= a_pre_ref sr < a_post_ref sr)%nat /\
    (a_post_ref sr < dw < length h')%nat /\
    length h' = (length h + 15)%nat.
Proof.
  intros Hzp Hzq Hap Haq Hep Hem Htc.
  pose proof (untouched_refl h) as Hacc.
  unfold stdp_sensor_step_heap.
  do 15 heap_op Hacc.
  eexists _, _, _. split; [reflexivity |]. split; [exact Hacc |].
  split.
  - unfold load_result, load_state. cbn [fst snd a_pre_ref a_post_ref].
    repeat match goal with
           | H : nth_error ?h ?r = Some _ |- context [nth_error ?h ?r] =>
             rewrite H
           end.
    reflexivity.
  - cbn [a_pre_ref a_post_ref]. rewrite !length_app. cbn [length].
    repeat split; lia.
Qed.

End HeapFacts.

(** C8.  The call keeps no state and changes none.  On a heap where its
    operands exist (the spikes, the two traces and, of the parameters passed
    or of the shared default, the two gains and [tau_c_inv]), a call
    succeeds, creates its results and leaves every existing tensor as it
    was, the shared default included; a second call on the same arguments,
    made after the first, returns tensors equal to those of the first, which
    are the ones the step computes from the tensors the operands point
    to. *)
Theorem stdp_sensor_step_deterministic
    {P A : Type} {ar : Arith P A} {I : Type}
    (h : Heap A I) (shared : STDPSensorParametersRef)
    (z_pre z_post : Ref) (s : STDPSensorStateRef)
    (p : option STDPSensorParametersRef) (dt : option P)
    (zp zq ap aq ep em tac tc : Tensor A I) :
  let q := match p with Some p' => p' | None => shared end in
  let out := stdp_sensor_step zp zq (mkState ap aq)
               (mkParameters ep em tac tc)
               (match dt with Some dt' => dt' | None => default_dt end) in
  nth_error h z_pre = Some zp -> nth_error h z_post = Some zq ->
  nth_error h (a_pre_ref s) = Some ap -> nth_error h (a_post_ref s) = Some aq ->
  nth_error h (eta_p_ref q) = Some ep -> nth_error h (eta_m_ref q) = Some em ->
  nth_error h (tau_c_inv_ref q) = Some tc ->
  exists r1 h1 r2 h2,
    stdp_sensor_step_heap_call shared z_pre z_post s p dt h = Some (r1, h1) /\
    stdp_sensor_step_heap_call shared z_pre z_post s p dt h1 = Some (r2, h2) /\
    untouched h h1 /\ untouched h1 h2 /\
    load_result h1 r1 = Some out /\
    load_result h2 r1 = Some out /\
    load_result h2 r2 = Some out.
Proof.
  intros q out Hzp Hzq Hap Haq Hep Hem Htc.
  unfold stdp_sensor_step_heap_call. fold q.
  destruct (stdp_sensor_step_heap_spec h z_pre z_post s q
              (match dt with Some dt' => dt' | None => default_dt end)
              zp zq ap aq ep em tac tc Hzp Hzq Hap Haq Hep Hem Htc)
    as (dw1 & s1 & h1 & Hrun1 & Hun1 & Hout1 & _).
  destruct (stdp_sensor_step_heap_spec h1 z_pre z_post s q
              (match dt with Some dt' => dt' | None => default_dt end)
              zp zq ap aq ep em tac tc
              (Hun1 _ _ Hzp) (Hun1 _ _ Hzq) (Hun1 _ _ Hap) (Hun1 _ _ Haq)
              (Hun1 _ _ Hep) (Hun1 _ _ Hem) (Hun1 _ _ Htc))
    as (dw2 & s2 & h2 & Hrun2 & Hun2 & Hout2 & _).
  exists (dw1, s1), h1, (dw2, s2), h2.
  repeat split; try assumption.
  now apply (load_result_untouched h1 h2).
Qed.

Section HeapInputs.
#[local] Existing Instance binary64.

(** A heap of eight tensors: two spikes, two traces and the four tensors of
    the shared default; the call omits [p] and [dt]. *)
Lemma stdp_sensor_step_deterministic_witness :
  let h : Heap spec_float unit :=
    [tensor (SFlit 1); tensor (SFlit 0);
     tensor (SFlit 0.5); tensor (SFlit 2);
     eta_p default_parameters; eta_m default_parameters;
     tau_ac_inv default_parameters; tau_c_inv default_parameters] in
  let shared := mkParametersRef 4%nat 5%nat 6%nat 7%nat in
  let s := mkStateRef 2%nat 3%nat in
  exists r1 h1 r2 h2,
    stdp_sensor_step_heap_call shared 0%nat 1%nat s None None h
    = Some (r1, h1) /\
    stdp_sensor_step_heap_call shared 0%nat 1%nat s None None h1
    = Some (r2, h2) /\
    untouched h h1 /\ untouched h1 h2 /\
    load_result h1 r1
    = Some (stdp_sensor_step (tensor (SFlit 1)) (tensor (SFlit 0))
              (mkState (tensor (SFlit 0.5)) (tensor (SFlit 2)))
              default_parameters default_dt) /\
    load_result h2 r1 = load_result h1 r1 /\
    load_result h2 r2 = load_result h1 r1.
Proof.
  cbv zeta.
  destruct (stdp_sensor_step_deterministic (I := unit)
              [tensor (SFlit 1); tensor (SFlit 0);
               tensor (SFlit 0.5); tensor (SFlit 2);
               eta_p default_parameters; eta_m default_parameters;
               tau_ac_inv default_parameters; tau_c_inv default_parameters]
              (mkParametersRef 4%nat 5%nat 6%nat 7%nat) 0%nat 1%nat
              (mkStateRef 2%nat 3%nat)
              None None
              (tensor (SFlit 1)) (tensor (SFlit 0))
              (tensor (SFlit 0.5)) (tensor (SFlit 2))
              (eta_p default_parameters) (eta_m default_parameters)
              (tau_ac_inv default_parameters) (tau_c_inv default_parameters)
              eq_refl eq_refl eq_refl eq_refl eq_refl eq_refl eq_refl)
    as (r1 & h1 & r2 & h2 & H1 & H2 & Hun1 & Hun2 & Ho1 & Ho2 & Ho3).
  exists r1, h1, r2, h2.
  repeat split; try assumption.
  - rewrite Ho2, Ho1. reflexivity.
  - rewrite Ho3, Ho1. reflexivity.
Defined.

End HeapInputs.

(** The three tensors a call returns are objects that did not exist before
    it: none of them is an operand, or any other tensor of the heap the call
    started from, and they are three different objects.  The call creates
    fifteen tensors in all and changes no existing one. *)
Theorem stdp_sensor_step_heap_fresh
    {P A : Type} {ar : Arith P A} {I : Type}
    (h h' : Heap A I) (z_pre z_post dw : Ref) (s sr : STDPSensorStateRef)
    (p : STDPSensorParametersRef) (dt : P)
    (zp zq ap aq ep em tc : Tensor A I) :
  nth_error h z_pre = Some zp -> nth_error h z_post = Some zq ->
  nth_error h (a_pre_ref s) = Some ap -> nth_error h (a_post_ref s) = Some aq ->
  nth_error h (eta_p_ref p) = Some ep -> nth_error h (eta_m_ref p) = Some em ->
  nth_error h (tau_c_inv_ref p) = Some tc ->
  stdp_sensor_step_heap z_pre z_post s p dt h = Some ((dw, sr), h') ->
  (forall r t, nth_error h r = Some t ->
     r <> dw /\ r <> a_pre_ref sr /\ r <> a_post_ref sr) /\
  dw <> a_pre_ref sr /\ dw <> a_post_ref sr /\
  a_pre_ref sr <> a_post_ref sr /\
  untouched h h' /\ length h' = (length h + 15)%nat.
Proof.
  intros Hzp Hzq Hap Haq Hep Hem Htc Hrun.
  destruct (stdp_sensor_step_heap_spec h z_pre z_post s p dt
              zp zq ap aq ep em tc tc Hzp Hzq Hap Haq Hep Hem Htc)
    as (dw0 & sr0 & h0 & Hrun0 & Hun & _ & Hpre & Hdw & Hlen).
  rewrite Hrun in Hrun0. injection Hrun0 as <- <- <-.
  split; [| repeat split; try assumption; lia].
  intros r t Hr.
  assert (r < length h)%nat by (apply nth_error_Some; rewrite Hr; discriminate).
  repeat split; lia.
Qed.

Section FreshInputs.
#[local] Existing Instance binary64.

(** A heap where the operands share objects: one tensor is both spikes, one
    both traces, one both gains and one both time constants. *)
Lemma stdp_sensor_step_heap_fresh_witness :
  let h : Heap spec_float unit :=
    [tensor (SFlit 1); tensor (SFlit 0.5); tensor (SFlit 2);
     tensor (SFlit 10)] in
  let s := mkStateRef 1%nat 1%nat in
  let p := mkParametersRef 2%nat 2%nat 3%nat 3%nat in
  let r := (18%nat, mkStateRef 13%nat 15%nat) in
  exists h',
    stdp_sensor_step_heap 0%nat 0%nat s p (SFlit 0.25) h = Some (r, h') /\
    untouched h h' /\ length h' = 19%nat.
Proof.
  cbv zeta.
  eexists.
  assert (Hrun : stdp_sensor_step_heap (I := unit) 0%nat 0%nat
                   (mkStateRef 1%nat 1%nat)
                   (mkParametersRef 2%nat 2%nat 3%nat 3%nat) (SFlit 0.25)
                   [tensor (SFlit 1); tensor (SFlit 0.5); tensor (SFlit 2);
                    tensor (SFlit 10)]
                 = Some ((18%nat, mkStateRef 13%nat 15%nat), _))
    by reflexivity.
  split; [exact Hrun |].
  destruct (stdp_sensor_step_heap_fresh (I := unit)
              [tensor (SFlit 1); tensor (SFlit 0.5); tensor (SFlit 2);
               tensor (SFlit 10)] _ 0%nat 0%nat _
              (mkStateRef 1%nat 1%nat) _
              (mkParametersRef 2%nat 2%nat 3%nat 3%nat) (SFlit 0.25)
              (tensor (SFlit 1)) (tensor (SFlit 1))
              (tensor (SFlit 0.5)) (tensor (SFlit 0.5))
              (tensor (SFlit 2)) (tensor (SFlit 2)) (tensor (SFlit 10))
              eq_refl eq_refl eq_refl eq_refl eq_refl eq_refl eq_refl Hrun)
    as (_ & _ & _ & _ & Hun & Hlen).
  split; [exact Hun | exact Hlen].
Defined.

End FreshInputs.

(** ** Values that are not numbers *)

(** The call has no guard against infinities and NaN: a trace that is
    infinite or NaN at a position is infinite or NaN there after the call,
    whatever the spikes, the parameters and [dt] are, and so is [dw]. *)
Theorem stdp_sensor_step_nonfinite_stays (prec emax : Z) {I : Type}
    (z_pre z_post : Tensor spec_float I) (s : STDPSensorState spec_float I)
    (p : STDPSensorParameters spec_float I) (dt : spec_float) (i : I) :
  let r := stdp_sensor_step (ar := IEEE_arith prec emax)
             z_pre z_post s p dt in
  (SFfinite (a_pre s i) = false ->
   SFfinite (a_pre (snd r) i) = false /\ SFfinite (fst r i) = false) /\
  (SFfinite (a_post s i) = false ->
   SFfinite (a_post (snd r) i) = false /\ SFfinite (fst r i) = false).
Proof.
  cbv zeta.
  assert (Hpre : SFfinite (a_pre s i) = false ->
                 SFfinite (a_pre (snd (stdp_sensor_step
                                         (ar := IEEE_arith prec emax)
                                         z_pre z_post s p dt)) i) = false).
  { intros Ha. rewrite (a_pre_new_entry (ar := IEEE_arith prec emax)).
    cbn [eadd emul eneg cast IEEE_arith].
    apply SFadd_nonfinite_l, SFadd_nonfinite_l. exact Ha. }
  assert (Hpost : SFfinite (a_post s i) = false ->
                  SFfinite (a_post (snd (stdp_sensor_step
                                           (ar := IEEE_arith prec emax)
                                           z_pre z_post s p dt)) i) = false).
  { intros Ha. rewrite (a_post_new_entry (ar := IEEE_arith prec emax)).
    cbn [eadd emul eneg cast IEEE_arith].
    apply SFadd_nonfinite_l, SFadd_nonfinite_l. exact Ha. }
  split; intros Ha; (split; [auto |]);
    rewrite (dw_entry (ar := IEEE_arith prec emax));
    cbn [eadd emul IEEE_arith].
  - apply SFadd_nonfinite_l, SFmul_nonfinite_r, Hpre, Ha.
  - apply SFadd_nonfinite_r, SFmul_nonfinite_r, Hpost, Ha.
Qed.

Section NonFiniteInputs.
#[local] Existing Instance binary64.

Lemma stdp_sensor_step_nonfinite_stays_witness :
  let z : Tensor spec_float unit := tensor (SFlit 0) in
  let s := mkState (fun _ => S754_infinity false) (tensor (SFlit 1)) in
  let r := stdp_sensor_step z z s default_parameters default_dt in
  SFfinite (a_pre (snd r) tt) = false /\ SFfinite (fst r tt) = false.
Proof.
  cbv zeta.
  exact (proj1 (stdp_sensor_step_nonfinite_stays 53 1024
                  (tensor (SFlit 0)) (tensor (SFlit 0))
                  (mkState (fun _ => S754_infinity false) (tensor (SFlit 1)))
                  default_parameters default_dt tt) eq_refl).
Defined.

End NonFiniteInputs.

(** ** The state of rest *)

(** In every floating-point format the state of rest is stable: with both
    traces at [+0], zero spikes of either sign and finite gains,
    [tau_c_inv] and [dt], the call returns both traces at [+0] and a zero
    [dw]. *)
Theorem stdp_sensor_step_rest (prec emax : Z) {I : Type}
    (z_pre z_post : Tensor spec_float I) (s : STDPSensorState spec_float I)
    (p : STDPSensorParameters spec_float I) (dt : spec_float) (i : I) :
  a_pre s i = S754_zero false -> a_post s i = S754_zero false ->
  SFis_zero (z_pre i) = true -> SFis_zero (z_post i) = true ->
  SFfinite (eta_p p i) = true -> SFfinite (eta_m p i) = true ->
  SFfinite (tau_c_inv p i) = true -> SFfinite (SFcast prec emax dt) = true ->
  let r := stdp_sensor_step (ar := IEEE_arith prec emax)
             z_pre z_post s p dt in
  a_pre (snd r) i = S754_zero false /\
  a_post (snd r) i = S754_zero false /\
  SFis_zero (fst r i) = true.
Proof.
  intros Ha Hb Hz Hz' Hp Hm Ht Hd. cbv zeta.
  rewrite (dw_entry (ar := IEEE_arith prec emax)),
    (a_pre_new_entry (ar := IEEE_arith prec emax)),
    (a_post_new_entry (ar := IEEE_arith prec emax)).
  cbn [eadd emul eneg cast IEEE_arith]. rewrite Ha, Hb.
  destruct (z_pre i) as [sz | | |]; try discriminate.
  destruct (z_post i) as [sz' | | |]; try discriminate.
  destruct (SFcast prec emax dt) as [sd | | | sd md ed]; try discriminate;
    destruct (tau_c_inv p i) as [st | | | st mt et]; try discriminate;
    destruct (eta_p p i) as [sp | | | sp mp ep]; try discriminate;
    destruct (eta_m p i) as [sm | | | sm mm em]; try discriminate;
    repeat match goal with b : bool |- _ => destruct b end;
    repeat split; reflexivity.
Qed.

Section RestInputs.
#[local] Existing Instance binary64.

Lemma stdp_sensor_step_rest_witness :
  let z : Tensor spec_float unit := fun _ => S754_zero true in
  let r := stdp_sensor_step z z zero_state default_parameters default_dt in
  a_pre (snd r) tt = S754_zero false /\
  a_post (snd r) tt = S754_zero false /\
  SFis_zero (fst r tt) = true.
Proof.
  cbv zeta.
  refine (stdp_sensor_step_rest 53 1024
            (fun _ => S754_zero true) (fun _ => S754_zero true)
            zero_state default_parameters default_dt tt
            _ _ _ _ _ _ _ _); vm_compute; reflexivity.
Defined.

End RestInputs.
